(** * Weather_data_project.py: a shallow embedding of the weather pipeline

    The script is one linear program: a fetch loop over the fixed city list
    (lines 84-105), a DataFrame built from the collected rows (line 108), an
    emptiness guard (lines 110-112), the six-panel dashboard (lines 124-221)
    and the summary statistics (lines 226-245).

    Modelling choices:
    - JSON numbers are exact rationals [Q]; the float rounding of the
      arithmetic is abstracted.  JSON booleans are not modelled.
    - A JSON object is an association list; a key that occurs twice is read
      at its last occurrence, as Python's [json] module keeps the last one.
    - The HTTP layer is an environment [net] giving, per city, either the
      parsed JSON object of the response or a [RequestException]
      (connection error, non-2xx status, undecodable body).
    - Console output, the saved image and the way the program ends are
      recorded by a small writer/exception monad [M]. *)

From Stdlib Require Import QArith String List Lia Bool Arith Lqa.
Import ListNotations.
Open Scope string_scope.
Set Warnings "-register-all".

(** ** JSON values as Python's [json] module returns them *)

Inductive Json : Type :=
| JNull
| JNum (q : Q)
| JStr (s : string)
| JArr (l : list Json)
| JObj (fields : list (string * Json)).

(** [d[k]] / [k in d] on a parsed object: the last binding of [k]. *)
Fixpoint obj_get (k : string) (fs : list (string * Json)) : option Json :=
  match fs with
  | [] => None
  | (k', v) :: rest =>
      match obj_get k rest with
      | Some v' => Some v'
      | None => if String.eqb k k' then Some v else None
      end
  end.

(** [d.get(k, default)] *)
Definition py_get (fs : list (string * Json)) (k : string) (default : Json) : Json :=
  match obj_get k fs with
  | Some v => v
  | None => default
  end.

(** A value usable in [x * 0.5] or [x - y]; any other JSON value raises
    [TypeError]. *)
Definition as_number (j : Json) : option Q :=
  match j with
  | JNum q => Some q
  | _ => None
  end.

(** ** The condition-code map (lines 48-73) *)

Definition weather_codes : list (Z * string) :=
  [ (0%Z, "Clear sky");
    (1%Z, "Mainly clear");
    (2%Z, "Partly cloudy");
    (3%Z, "Overcast");
    (45%Z, "Foggy");
    (48%Z, "Foggy");
    (51%Z, "Light drizzle");
    (53%Z, "Moderate drizzle");
    (55%Z, "Dense drizzle");
    (61%Z, "Slight rain");
    (63%Z, "Moderate rain");
    (65%Z, "Heavy rain");
    (71%Z, "Slight snow");
    (73%Z, "Moderate snow");
    (75%Z, "Heavy snow");
    (77%Z, "Snow grains");
    (80%Z, "Slight rain showers");
    (81%Z, "Moderate rain showers");
    (82%Z, "Violent rain showers");
    (85%Z, "Slight snow showers");
    (86%Z, "Heavy snow showers");
    (95%Z, "Thunderstorm");
    (96%Z, "Thunderstorm with hail");
    (99%Z, "Thunderstorm with hail") ].

(** [weather_codes.get(k, "Unknown")] for an integer key. *)
Definition weather_codes_get (k : Z) : string :=
  match find (fun p => Z.eqb (fst p) k) weather_codes with
  | Some (_, v) => v
  | None => "Unknown"
  end.

(** [get_weather_description(code)] (lines 75-77) on the JSON value the
    code is called with.  An integral number (int or float: [45.0 == 45]
    and both hash alike) is looked up by its integer value; strings, null
    and non-integral numbers are absent keys; lists and dicts are
    unhashable, and [dict.get] raises [TypeError] ([None]). *)
Definition get_weather_description (code : Json) : option string :=
  match code with
  | JNum q =>
      if Z.eqb (Z.modulo (Qnum q) (Zpos (Qden q))) 0
      then Some (weather_codes_get (Z.div (Qnum q) (Zpos (Qden q))))
      else Some "Unknown"
  | JNull | JStr _ => Some "Unknown"
  | JArr _ | JObj _ => None
  end.

(** ** Cities and records *)

Record city_info : Type := {
  name : string;
  lat : Q;
  lon : Q
}.

(** The registry of lines 14-25. *)
Definition cities : list city_info :=
  [ {| name := "London"; lat := 51.5074; lon := -0.1278 |};
    {| name := "New York"; lat := 40.7128; lon := -74.0060 |};
    {| name := "Tokyo"; lat := 35.6762; lon := 139.6503 |};
    {| name := "Paris"; lat := 48.8566; lon := 2.3522 |};
    {| name := "Sydney"; lat := -33.8688; lon := 151.2093 |};
    {| name := "Mumbai"; lat := 19.0760; lon := 72.8777 |};
    {| name := "Dubai"; lat := 25.2048; lon := 55.2708 |};
    {| name := "Singapore"; lat := 1.3521; lon := 103.8198 |};
    {| name := "Berlin"; lat := 52.5200; lon := 13.4050 |};
    {| name := "Toronto"; lat := 43.6532; lon := -79.3832 |} ].

(** The [weather_info] dict of lines 90-102.  Temperature and wind speed
    went through arithmetic, so they are numbers; humidity and the weather
    code are stored as received. *)
Record weather_info : Type := {
  City : string;
  Temperature : Q;
  Humidity : Json;
  Wind_Speed : Q;
  Weather_Code : Json;
  Weather : string;
  Latitude : Q;
  Longitude : Q;
  Feels_Like : Q
}.

(** Lines 89-102, given [current = data['current']].  [None] is an
    uncaught exception: [AttributeError] when [current] is not a dict,
    [TypeError] from [get_weather_description] on an unhashable code, from
    [wind * 0.5] or from [temperature - wind_chill] on a non-number. *)
Definition build_record (c : city_info) (current : Json) : option weather_info :=
  match current with
  | JObj fs =>
      let t := py_get fs "temperature_2m" (JNum 0) in
      let h := py_get fs "relative_humidity_2m" (JNum 0) in
      let w := py_get fs "wind_speed_10m" (JNum 0) in
      let code := py_get fs "weather_code" (JNum 0) in
      match get_weather_description code with
      | None => None
      | Some descr =>
          match as_number w with
          | None => None
          | Some wq =>
              let wind_chill := (wq * (1 # 2))%Q in
              match as_number t with
              | None => None
              | Some tq =>
                  Some {| City := name c;
                          Temperature := tq;
                          Humidity := h;
                          Wind_Speed := wq;
                          Weather_Code := code;
                          Weather := descr;
                          Latitude := lat c;
                          Longitude := lon c;
                          Feels_Like := (tq - wind_chill)%Q |}
              end
          end
      end
  | _ => None
  end.

(** ** Floats as numpy computes them, for the divisions of the renderer *)

Inductive np_float : Type :=
| NFin (q : Q)
| NNaN
| NPosInf
| NNegInf.

(** numpy's true division: [x / 0] is [nan] for [x = 0], [+-inf]
    otherwise, with a [RuntimeWarning] and no exception. *)
Definition np_div (a b : Q) : np_float :=
  if Qeq_bool b 0 then
    if Qeq_bool a 0 then NNaN
    else if Qle_bool a 0 then NNegInf else NPosInf
  else NFin (a / b).

Definition Qltb (x y : Q) : bool := negb (Qle_bool y x).

(** [Series.max()] / [Series.min()] of a numeric column; the renderer and
    the reporter only run on non-empty tables. *)
Definition col_max (l : list Q) : Q :=
  match l with
  | [] => 0
  | x :: r => fold_left (fun m y => if Qltb m y then y else m) r x
  end.

Definition col_min (l : list Q) : Q :=
  match l with
  | [] => 0
  | x :: r => fold_left (fun m y => if Qltb y m then y else m) r x
  end.

Definition col_sum (l : list Q) : Q := fold_right Qplus 0 l.

Definition col_mean (l : list Q) : np_float :=
  np_div (col_sum l) (inject_Z (Z.of_nat (length l))).

(** [Series.idxmax()] / [Series.idxmin()] on the default [RangeIndex]:
    numpy's [argmax]/[argmin], the first position holding the extremum. *)
Fixpoint idxmax_from (best_i : nat) (best : Q) (i : nat) (l : list Q) : nat :=
  match l with
  | [] => best_i
  | x :: r => if Qltb best x then idxmax_from i x (S i) r
              else idxmax_from best_i best (S i) r
  end.

Definition idxmax (l : list Q) : nat :=
  match l with
  | [] => 0
  | x :: r => idxmax_from 0 x 1 r
  end.

Fixpoint idxmin_from (best_i : nat) (best : Q) (i : nat) (l : list Q) : nat :=
  match l with
  | [] => best_i
  | x :: r => if Qltb x best then idxmin_from i x (S i) r
              else idxmin_from best_i best (S i) r
  end.

Definition idxmin (l : list Q) : nat :=
  match l with
  | [] => 0
  | x :: r => idxmin_from 0 x 1 r
  end.

(** ** The DataFrame columns *)

Definition temperatures (df : list weather_info) : list Q := map Temperature df.

(** The float column pandas infers for [Humidity (%)]: numbers, with
    [None] as [NaN] when at least one number is present.  Strings, lists,
    dicts, or a column of [None] only, give an [object] column on which
    [values / 100] (line 162) raises [TypeError]: [None] here. *)
Fixpoint humidity_values (hs : list Json) : option (list (option Q)) :=
  match hs with
  | [] => Some []
  | JNum q :: r => option_map (cons (Some q)) (humidity_values r)
  | JNull :: r => option_map (cons None) (humidity_values r)
  | _ :: _ => None
  end.

Definition all_null (hs : list Json) : bool :=
  forallb (fun j => match j with JNull => true | _ => false end) hs.

Definition humidity_column (df : list weather_info) : option (list (option Q)) :=
  let hs := map Humidity df in
  if all_null hs then None else humidity_values hs.

(** [Series.mean()] skipping [NaN]. *)
Definition mean_skipna (col : list (option Q)) : np_float :=
  let present := flat_map (fun o => match o with Some q => [q] | None => [] end) col in
  col_mean present.

(** [Series.value_counts()] of the [Weather] column, in first-occurrence
    order (the pie's slice order is not modelled). *)
Fixpoint count_labels (acc : list (string * nat)) (ls : list string) : list (string * nat) :=
  match ls with
  | [] => acc
  | l :: r =>
      let acc' :=
        if existsb (fun p => String.eqb (fst p) l) acc
        then map (fun p => if String.eqb (fst p) l then (fst p, S (snd p)) else p) acc
        else app acc [(l, 1%nat)] in
      count_labels acc' r
  end.

(** ** The dashboard (lines 124-221)

    The charting calls are a black box; the dashboard records the arrays
    handed to it.  Panel 3's ascending sort and the pie's slice order are
    left out. *)
Record dashboard : Type := {
  temp_bars : list (string * Q);          (* panel 1: bars *)
  temp_colors : list np_float;            (* panel 1: RdYlBu_r argument *)
  temp_vs_humidity : list (Q * option Q); (* panel 2 *)
  humidity_colors : list np_float;        (* panel 3: Blues argument *)
  wind_line : list (string * Q);          (* panel 4 *)
  weather_counts : list (string * nat);   (* panel 5 *)
  temp_vs_feels : list (Q * Q)            (* panel 6 *)
}.

(** ** Observable effects *)

Inductive event : Type :=
| EvFetchingBanner                          (* lines 81-82 *)
| EvFetching (city : string)                (* line 85 *)
| EvFetchError (city : string) (cause : string) (* line 44 *)
| EvAdded (city : string) (temp : Q) (label : string) (* line 105 *)
| EvNoData                                  (* line 111 *)
| EvTable (df : list weather_info)          (* lines 114-117 *)
| EvSaved (file : string) (d : dashboard)   (* lines 219-220 *)
| EvShow                                    (* line 221 *)
| EvAvgTemp (v : np_float)                  (* line 229 *)
| EvHighest (v : Q) (city : string)         (* line 230 *)
| EvLowest (v : Q) (city : string)          (* line 231 *)
| EvAvgHumidity (v : np_float)              (* line 232 *)
| EvAvgWind (v : np_float)                  (* line 233 *)
| EvCompleted.                              (* lines 235-245 *)

(** How the script ends: normally, through [exit()], or by an uncaught
    exception. *)
Inductive outcome (A : Type) : Type :=
| Done (a : A)
| Exited
| Raised.
Arguments Done {A} a.
Arguments Exited {A}.
Arguments Raised {A}.

Definition M (A : Type) : Type := (list event * outcome A)%type.

Definition ret {A} (a : A) : M A := ([], Done a).

Definition bind {A B} (m : M A) (f : A -> M B) : M B :=
  match m with
  | (out, Done a) => let (out', r) := f a in (app out out', r)
  | (out, Exited) => (out, Exited)
  | (out, Raised) => (out, Raised)
  end.

Definition emit (e : event) : M unit := ([e], Done tt).
Definition py_exit {A} : M A := ([], Exited).
Definition raise {A} : M A := ([], Raised).

Notation "x <- m1 ;; m2" := (bind m1 (fun x => m2))
  (at level 61, m1 at next level, right associativity).
Notation "m1 ;; m2" := (bind m1 (fun _ : unit => m2))
  (at level 61, right associativity).

(** Lift a computation that may raise. *)
Definition lift_exn {A} (o : option A) : M A :=
  match o with
  | Some a => ret a
  | None => raise
  end.

(** ** The network *)

Inductive fetch_result : Type :=
| FetchOk (body : list (string * Json))
| FetchErr (cause : string).

Section Pipeline.

Variable net : city_info -> fetch_result.

(** [fetch_weather_data] (lines 30-45). *)
Definition fetch_weather_data (c : city_info) : M (option (list (string * Json))) :=
  match net c with
  | FetchOk body => ret (Some body)
  | FetchErr e => emit (EvFetchError (name c) e) ;; ret None
  end.

(** One iteration of the loop of lines 84-105.  [data and 'current' in
    data]: an empty dict is falsy, and then has no [current] key either. *)
Definition fetch_city (weather_data : list weather_info) (c : city_info)
  : M (list weather_info) :=
  emit (EvFetching (name c)) ;;
  data <- fetch_weather_data c ;;
  match data with
  | None => ret weather_data
  | Some body =>
      match obj_get "current" body with
      | None => ret weather_data
      | Some current =>
          weather_info <- lift_exn (build_record c current) ;;
          emit (EvAdded (name c) (Temperature weather_info) (Weather weather_info)) ;;
          ret (app weather_data [weather_info])
      end
  end.

Fixpoint fetch_loop (weather_data : list weather_info) (reg : list city_info)
  : M (list weather_info) :=
  match reg with
  | [] => ret weather_data
  | c :: rest => wd <- fetch_city weather_data c ;; fetch_loop wd rest
  end.

(** The table of line 108, from an empty [weather_data]. *)
Definition collect (reg : list city_info) : M (list weather_info) :=
  fetch_loop [] reg.

End Pipeline.

(** Panel 1, lines 130-131: each temperature's position in [min, max]. *)
Definition temp_color_positions (df : list weather_info) : list np_float :=
  let ts := temperatures df in
  map (fun t => np_div (t - col_min ts) (col_max ts - col_min ts)) ts.

(** The arrays of the six panels, given the humidity column. *)
Definition dashboard_of (df : list weather_info) (hum : list (option Q)) : dashboard :=
  {| temp_bars := map (fun r => (City r, Temperature r)) df;
     temp_colors := temp_color_positions df;
     temp_vs_humidity := combine (temperatures df) hum;
     humidity_colors :=
       map (fun o => match o with
                     | Some h => np_div h 100
                     | None => NNaN
                     end) hum;
     wind_line := map (fun r => (City r, Wind_Speed r)) df;
     weather_counts := count_labels [] (map Weather df);
     temp_vs_feels := map (fun r => (Temperature r, Feels_Like r)) df |}.

(** Lines 124-219.  Line 162 raises on a non-numeric humidity column. *)
Definition render (df : list weather_info) : M dashboard :=
  hum <- lift_exn (humidity_column df) ;;
  ret (dashboard_of df hum).

(** [df.loc[i, 'City']] *)
Definition city_at (df : list weather_info) (i : nat) : string :=
  match nth_error df i with
  | Some r => City r
  | None => ""
  end.

(** The Summary Reporter's choice of records, lines 230-231. *)
Definition highest (df : list weather_info) : Q * string :=
  (col_max (temperatures df), city_at df (idxmax (temperatures df))).

Definition lowest (df : list weather_info) : Q * string :=
  (col_min (temperatures df), city_at df (idxmin (temperatures df))).

(** Lines 226-245, given the table and its humidity column. *)
Definition summary (df : list weather_info) (hum : list (option Q)) : M unit :=
  emit (EvAvgTemp (col_mean (temperatures df))) ;;
  emit (EvHighest (fst (highest df)) (snd (highest df))) ;;
  emit (EvLowest (fst (lowest df)) (snd (lowest df))) ;;
  emit (EvAvgHumidity (mean_skipna hum)) ;;
  emit (EvAvgWind (col_mean (map Wind_Speed df))) ;;
  emit EvCompleted.

(** The whole script. *)
Definition main (net : city_info -> fetch_result) (reg : list city_info) : M unit :=
  emit EvFetchingBanner ;;
  df <- collect net reg ;;
  match df with
  | [] => emit EvNoData ;; py_exit
  | _ :: _ =>
      emit (EvTable df) ;;
      d <- render df ;;
      emit (EvSaved "weather_dashboard.png" d) ;;
      emit EvShow ;;
      hum <- lift_exn (humidity_column df) ;;
      summary df hum
  end.

(** ** Concrete runs *)

Definition city_A : city_info := {| name := "A"; lat := 0; lon := 0 |}.
Definition city_B : city_info := {| name := "B"; lat := 1; lon := 1 |}.

(** A network answering [current] for [A] and failing for every other city. *)
Definition net_with_A (current : list (string * Json)) (c : city_info) : fetch_result :=
  if String.eqb (name c) "A" then FetchOk [("current", JObj current)]
  else FetchErr "ConnectionError".

Definition payload_A : list (string * Json) :=
  [("temperature_2m", JNum 15); ("relative_humidity_2m", JNum 50);
   ("wind_speed_10m", JNum 4); ("weather_code", JNum 0)].

Definition record_A : weather_info :=
  {| City := "A"; Temperature := 15; Humidity := JNum 50; Wind_Speed := 4;
     Weather_Code := JNum 0; Weather := "Clear sky"; Latitude := 0;
     Longitude := 0; Feels_Like := 15 - 4 * (1 # 2) |}.

Example collect_scenario :
  collect (net_with_A payload_A) [city_A; city_B] =
    ([EvFetching "A"; EvAdded "A" 15 "Clear sky";
      EvFetching "B"; EvFetchError "B" "ConnectionError"], Done [record_A]).
Proof. reflexivity. Qed.

Example feels_like_scenario : (Feels_Like record_A == 13)%Q.
Proof. reflexivity. Qed.

Example mean_scenario : col_mean (temperatures [record_A]) = NFin (15 / 1).
Proof. reflexivity. Qed.

Example idxmax_tie : idxmax [10; 30; 30; 20]%Q = 1%nat /\ idxmin [10; 5; 5]%Q = 1%nat.
Proof. split; reflexivity. Qed.

Example description_float_key : get_weather_description (JNum (45 # 1)) = Some "Foggy"
  /\ get_weather_description (JNum (91 # 2)) = Some "Unknown"
  /\ get_weather_description (JStr "45") = Some "Unknown"
  /\ get_weather_description (JArr []) = None.
Proof. repeat split; reflexivity. Qed.

(** ** The condition-code translator *)

Lemma get_weather_description_int (k : Z) :
  get_weather_description (JNum (inject_Z k)) = Some (weather_codes_get k).
Proof.
  unfold get_weather_description, inject_Z; simpl.
  rewrite Z.mod_1_r, Z.div_1_r. reflexivity.
Qed.

(** C4: [get_weather_description] is total on integer codes: every code of
    [weather_codes] gets its own label, every other integer gets
    ["Unknown"], and no integer makes it raise. *)
Theorem get_weather_description_total :
  (forall k v, In (k, v) weather_codes ->
     get_weather_description (JNum (inject_Z k)) = Some v) /\
  (forall k, ~ In k (map fst weather_codes) ->
     get_weather_description (JNum (inject_Z k)) = Some "Unknown").
Proof.
  split.
  - intros k v Hin. rewrite get_weather_description_int.
    simpl in Hin.
    repeat (destruct Hin as [Hin | Hin];
            [injection Hin as <- <-; reflexivity |]).
    contradiction.
  - intros k Hnot. rewrite get_weather_description_int.
    unfold weather_codes_get.
    destruct (find (fun p => Z.eqb (fst p) k) weather_codes) as [[k' v]|] eqn:Hf;
      [| reflexivity].
    apply find_some in Hf as [Hin Heq]. simpl in Heq.
    apply Z.eqb_eq in Heq. subst k'.
    exfalso. apply Hnot. apply (in_map fst _ _ Hin).
Qed.

Lemma get_weather_description_total_witness :
  In (48%Z, "Foggy") weather_codes /\
  get_weather_description (JNum (inject_Z 48)) = Some "Foggy" /\
  ~ In 7%Z (map fst weather_codes) /\
  get_weather_description (JNum (inject_Z 7)) = Some "Unknown".
Proof.
  assert (Hin : In (48%Z, "Foggy") weather_codes) by (simpl; tauto).
  assert (Hout : ~ In 7%Z (map fst weather_codes))
    by (simpl; intuition discriminate).
  split; [exact Hin |]. split.
  - exact (proj1 get_weather_description_total _ _ Hin).
  - split; [exact Hout |]. exact (proj2 get_weather_description_total _ Hout).
Defined.

(** The codes carrying a given label. *)
Definition codes_with_label (label : string) : list Z :=
  map fst (filter (fun p => String.eqb (snd p) label) weather_codes).

(** C5, as stated, fails: only two codes carry "Thunderstorm with hail". *)
Lemma hail_codes_not_three :
  ~ (length (codes_with_label "Foggy") = 2%nat /\
     length (codes_with_label "Thunderstorm with hail") = 3%nat).
Proof. vm_compute. intros [_ H]. discriminate H. Qed.

(** C5 (amended): the keys of [weather_codes] are distinct; exactly the
    two codes 45 and 48 map to "Foggy" and exactly the two codes 96 and 99
    map to "Thunderstorm with hail" (95 is "Thunderstorm"). *)
Theorem many_to_one_labels :
  NoDup (map fst weather_codes) /\
  codes_with_label "Foggy" = [45%Z; 48%Z] /\
  codes_with_label "Thunderstorm with hail" = [96%Z; 99%Z] /\
  weather_codes_get 95 = "Thunderstorm".
Proof.
  split; [| split; [| split]]; try reflexivity.
  simpl. repeat constructor; simpl; intuition discriminate.
Qed.

(** ** The fetch loop *)

(** A city whose fetch succeeds and whose body has a [current] key. *)
Definition succeeds (net : city_info -> fetch_result) (c : city_info) : bool :=
  match net c with
  | FetchOk body =>
      match obj_get "current" body with
      | Some _ => true
      | None => false
      end
  | FetchErr _ => false
  end.

Lemma bind_Done {A B} (m : M A) (f : A -> M B) out b :
  bind m f = (out, Done b) ->
  exists out1 a out2, m = (out1, Done a) /\ f a = (out2, Done b) /\ out = app out1 out2.
Proof.
  destruct m as [o1 [a| |]]; simpl; try discriminate.
  destruct (f a) as [o2 r] eqn:Hf. intros H. inversion H; subst.
  eauto 7.
Qed.

Lemma build_record_City c cur w :
  build_record c cur = Some w -> City w = name c.
Proof.
  unfold build_record. destruct cur; try discriminate.
  destruct (get_weather_description _); try discriminate.
  destruct (as_number (py_get fields "wind_speed_10m" (JNum 0))); try discriminate.
  destruct (as_number (py_get fields "temperature_2m" (JNum 0))); try discriminate.
  intros H. injection H as <-. reflexivity.
Qed.

Lemma fetch_city_Done net acc c out acc' :
  fetch_city net acc c = (out, Done acc') ->
  (succeeds net c = false /\ acc' = acc) \/
  (succeeds net c = true /\
   exists cur w, build_record c cur = Some w /\ acc' = app acc [w]).
Proof.
  unfold fetch_city, fetch_weather_data, succeeds.
  destruct (net c) as [body | e]; simpl.
  - destruct (obj_get "current" body) as [cur |]; simpl.
    + destruct (build_record c cur) as [w |] eqn:Hb; simpl; intros H;
        inversion H; subst.
      right. split; [reflexivity | eauto].
    + intros H. inversion H; subst. left. auto.
  - intros H. inversion H; subst. left. auto.
Qed.

Definition built (w : weather_info) : Prop :=
  exists c cur, build_record c cur = Some w.

Lemma fetch_loop_Done net reg :
  forall acc out df,
  fetch_loop net acc reg = (out, Done df) ->
  exists new, df = app acc new /\
    map City new = map name (filter (succeeds net) reg) /\
    Forall built new.
Proof.
  induction reg as [| c rest IH]; intros acc out df H.
  - simpl in H. inversion H; subst. exists []. rewrite app_nil_r. auto.
  - simpl in H. apply bind_Done in H as (o1 & wd & o2 & Hc & Hl & _).
    apply IH in Hl as (new & -> & Hmap & Hb).
    apply fetch_city_Done in Hc as [[Hs ->] | [Hs (cur & w & Hw & ->)]].
    + exists new. simpl. rewrite Hs. auto.
    + exists (w :: new). simpl. rewrite Hs, <- app_assoc. simpl.
      rewrite (build_record_City _ _ _ Hw), Hmap.
      split; [reflexivity | split; [reflexivity |]].
      constructor; [exists c, cur |]; assumption.
Qed.

Lemma collect_Done net reg out df :
  collect net reg = (out, Done df) ->
  map City df = map name (filter (succeeds net) reg) /\ Forall built df.
Proof.
  intros H. apply fetch_loop_Done in H as (new & -> & Hm & Hb). simpl. auto.
Qed.

Lemma filtered_names_distinct (keep : city_info -> bool) (reg : list city_info) :
  NoDup (map name reg) -> NoDup (map name (filter keep reg)).
Proof.
  induction reg as [| c reg IH]; simpl; intros Hnd; [constructor |].
  inversion Hnd as [| ? ? Hnotin Hnd']; subst.
  destruct (keep c); simpl; [constructor |]; auto.
  intros Hin. apply Hnotin.
  apply in_map_iff in Hin as (c' & Hc' & Hinc').
  apply filter_In in Hinc' as [Hinc' _].
  rewrite <- Hc'. apply in_map. assumption.
Qed.

(** C1: a run that builds its table keeps exactly the cities whose fetch
    succeeded with a [current] section, one record each, in registry
    order; failed cities add nothing; with distinct registry names the
    table has no duplicate city. *)
Theorem table_of_successful_cities :
  forall net reg out df,
  collect net reg = (out, Done df) ->
  map City df = map name (filter (succeeds net) reg) /\
  length df = length (filter (succeeds net) reg) /\
  length reg = (length (filter (succeeds net) reg)
                + length (filter (fun c => negb (succeeds net c)) reg))%nat /\
  (NoDup (map name reg) -> NoDup (map City df)).
Proof.
  intros net reg out df H.
  destruct (collect_Done _ _ _ _ H) as [Hm _].
  split; [exact Hm |]. split.
  - rewrite <- (length_map City df), Hm, length_map. reflexivity.
  - split.
    + clear. induction reg as [| c rest IH]; simpl; [reflexivity |].
      destruct (succeeds net c); simpl; lia.
    + intros Hnd. rewrite Hm. apply filtered_names_distinct. assumption.
Qed.

Lemma registry_names_distinct : NoDup (map name cities).
Proof. simpl. repeat constructor; simpl; intuition discriminate. Qed.

Definition net_all_but_Paris (c : city_info) : fetch_result :=
  if String.eqb (name c) "Paris" then FetchErr "HTTPError: 503"
  else FetchOk [("current", JObj payload_A)].

Lemma table_of_successful_cities_witness :
  exists out df, collect net_all_but_Paris cities = (out, Done df) /\
  map City df = map name (filter (succeeds net_all_but_Paris) cities) /\
  length df = 9%nat /\ NoDup (map City df).
Proof.
  eexists. eexists. split; [vm_compute; reflexivity |].
  destruct (table_of_successful_cities net_all_but_Paris cities _ _
              (eq_refl (collect net_all_but_Paris cities)))
    as (Hm & Hl & _ & Hnd).
  split; [exact Hm |]. split; [etransitivity; [exact Hl | reflexivity] |].
  apply Hnd, registry_names_distinct.
Defined.

(** ** Record-level facts *)

Lemma build_record_fields c cur w :
  build_record c cur = Some w ->
  Feels_Like w = (Temperature w - Wind_Speed w * (1 # 2))%Q /\
  get_weather_description (Weather_Code w) = Some (Weather w).
Proof.
  unfold build_record. destruct cur; try discriminate.
  destruct (get_weather_description (py_get fields "weather_code" (JNum 0)))
    as [descr |] eqn:Hd; try discriminate.
  destruct (as_number (py_get fields "wind_speed_10m" (JNum 0))); try discriminate.
  destruct (as_number (py_get fields "temperature_2m" (JNum 0))); try discriminate.
  intros H. injection H as <-. simpl. auto.
Qed.




(** C10: in every record of a built table, the stored label is the
    translator applied to the stored condition code. *)
Theorem label_matches_code :
  forall net reg out df,
  collect net reg = (out, Done df) ->
  Forall (fun w => get_weather_description (Weather_Code w) = Some (Weather w)) df.
Proof.
  intros net reg out df H.
  apply collect_Done in H as [_ Hb].
  eapply Forall_impl; [| exact Hb].
  intros w (c & cur & Hw).
  exact (proj2 (build_record_fields _ _ _ Hw)).
Qed.

Definition payload_fog : list (string * Json) :=
  [("temperature_2m", JNum 3); ("weather_code", JNum (48 # 1))].

Lemma label_matches_code_witness :
  collect (net_with_A payload_fog) [city_A] =
    ([EvFetching "A"; EvAdded "A" 3 "Foggy"],
     Done (match snd (collect (net_with_A payload_fog) [city_A]) with
           | Done df => df | _ => [] end)) /\
  Forall (fun w => get_weather_description (Weather_Code w) = Some (Weather w))
    (match snd (collect (net_with_A payload_fog) [city_A]) with
     | Done df => df | _ => [] end).
Proof.
  assert (H : collect (net_with_A payload_fog) [city_A] =
    ([EvFetching "A"; EvAdded "A" 3 "Foggy"],
     Done (match snd (collect (net_with_A payload_fog) [city_A]) with
           | Done df => df | _ => [] end))) by reflexivity.
  split; [exact H |].
  exact (label_matches_code _ _ _ _ H).
Defined.

(** ** The Summary Reporter's extrema *)

Open Scope Q_scope.

Lemma Qltb_true x y : Qltb x y = true -> x < y.
Proof.
  unfold Qltb. intros H. apply negb_true_iff in H.
  apply Qnot_le_lt. intros Hle. apply Qle_bool_iff in Hle. congruence.
Qed.

Lemma Qltb_false x y : Qltb x y = false -> y <= x.
Proof.
  unfold Qltb. intros H. apply negb_false_iff in H. apply Qle_bool_iff. exact H.
Qed.

Lemma nth_error_snoc {A} (pre : list A) (x : A) j y :
  nth_error (app pre [x]) j = Some y ->
  nth_error pre j = Some y \/ (j = length pre /\ y = x).
Proof.
  intros H. destruct (Nat.lt_ge_cases j (length pre)) as [Hlt | Hge].
  - left. rewrite nth_error_app1 in H by exact Hlt. exact H.
  - right. rewrite nth_error_app2 in H by exact Hge.
    destruct (j - length pre)%nat as [| k] eqn:Hk; simpl in H.
    + injection H as <-. split; [lia | reflexivity].
    + destruct k; discriminate.
Qed.

Lemma nth_error_snoc_last {A} (pre : list A) (x : A) :
  nth_error (app pre [x]) (length pre) = Some x.
Proof. rewrite nth_error_app2 by lia. rewrite Nat.sub_diag. reflexivity. Qed.

Lemma nth_error_snoc_prefix {A} (pre : list A) (x : A) j y :
  nth_error pre j = Some y -> nth_error (app pre [x]) j = Some y.
Proof.
  intros H. rewrite nth_error_app1; [exact H |].
  apply nth_error_Some. congruence.
Qed.

Lemma idxmax_from_spec l :
  forall pre bi b,
  nth_error pre bi = Some b ->
  (forall j x, nth_error pre j = Some x -> x <= b) ->
  (forall j x, (j < bi)%nat -> nth_error pre j = Some x -> x < b) ->
  exists v, nth_error (app pre l) (idxmax_from bi b (length pre) l) = Some v /\
    (forall j x, nth_error (app pre l) j = Some x -> x <= v) /\
    (forall j x, (j < idxmax_from bi b (length pre) l)%nat ->
       nth_error (app pre l) j = Some x -> x < v).
Proof.
  induction l as [| y l IH]; intros pre bi b Hb Hle Hlt; simpl.
  - exists b. rewrite app_nil_r. auto.
  - replace (app pre (y :: l)) with (app (app pre [y]) l)
      by (rewrite <- app_assoc; reflexivity).
    replace (S (length pre)) with (length (app pre [y]))
      by (rewrite length_app; simpl; lia).
    destruct (Qltb b y) eqn:Hby.
    + apply Qltb_true in Hby. apply IH.
      * apply nth_error_snoc_last.
      * intros j x Hj. apply nth_error_snoc in Hj as [Hj | [_ ->]].
        -- apply Qlt_le_weak. apply Qle_lt_trans with b; eauto.
        -- apply Qle_refl.
      * intros j x Hj Hx. rewrite nth_error_app1 in Hx by exact Hj.
        apply Qle_lt_trans with b; eauto.
    + apply Qltb_false in Hby. apply IH.
      * apply nth_error_snoc_prefix. exact Hb.
      * intros j x Hj. apply nth_error_snoc in Hj as [Hj | [_ ->]]; eauto.
      * intros j x Hj Hx. apply nth_error_snoc in Hx as [Hx | [-> ->]]; eauto.
        exfalso. assert (bi < length pre)%nat by (apply nth_error_Some; congruence).
        lia.
Qed.

Lemma idxmin_from_spec l :
  forall pre bi b,
  nth_error pre bi = Some b ->
  (forall j x, nth_error pre j = Some x -> b <= x) ->
  (forall j x, (j < bi)%nat -> nth_error pre j = Some x -> b < x) ->
  exists v, nth_error (app pre l) (idxmin_from bi b (length pre) l) = Some v /\
    (forall j x, nth_error (app pre l) j = Some x -> v <= x) /\
    (forall j x, (j < idxmin_from bi b (length pre) l)%nat ->
       nth_error (app pre l) j = Some x -> v < x).
Proof.
  induction l as [| y l IH]; intros pre bi b Hb Hle Hlt; simpl.
  - exists b. rewrite app_nil_r. auto.
  - replace (app pre (y :: l)) with (app (app pre [y]) l)
      by (rewrite <- app_assoc; reflexivity).
    replace (S (length pre)) with (length (app pre [y]))
      by (rewrite length_app; simpl; lia).
    destruct (Qltb y b) eqn:Hby.
    + apply Qltb_true in Hby. apply IH.
      * apply nth_error_snoc_last.
      * intros j x Hj. apply nth_error_snoc in Hj as [Hj | [_ ->]].
        -- apply Qlt_le_weak. apply Qlt_le_trans with b; eauto.
        -- apply Qle_refl.
      * intros j x Hj Hx. rewrite nth_error_app1 in Hx by exact Hj.
        apply Qlt_le_trans with b; eauto.
    + apply Qltb_false in Hby. apply IH.
      * apply nth_error_snoc_prefix. exact Hb.
      * intros j x Hj. apply nth_error_snoc in Hj as [Hj | [_ ->]]; eauto.
      * intros j x Hj Hx. apply nth_error_snoc in Hx as [Hx | [-> ->]]; eauto.
        exfalso. assert (bi < length pre)%nat by (apply nth_error_Some; congruence).
        lia.
Qed.

Lemma fold_max_spec r :
  forall x, let m := fold_left (fun m y => if Qltb m y then y else m) r x in
  (m = x \/ In m r) /\ x <= m /\ (forall y, In y r -> y <= m).
Proof.
  induction r as [| y r IH]; intros x; simpl.
  - split; [auto | split; [apply Qle_refl | tauto]].
  - destruct (IH (if Qltb x y then y else x)) as (Hin & Hge & Hall).
    destruct (Qltb x y) eqn:Hxy.
    + apply Qltb_true in Hxy.
      split; [destruct Hin; auto |]. split.
      * apply Qle_trans with y; [apply Qlt_le_weak |]; assumption.
      * intros z [<- | Hz]; auto.
    + apply Qltb_false in Hxy.
      split; [destruct Hin; auto |]. split; [assumption |].
      intros z [<- | Hz]; [apply Qle_trans with x |]; auto.
Qed.

Lemma fold_min_spec r :
  forall x, let m := fold_left (fun m y => if Qltb y m then y else m) r x in
  (m = x \/ In m r) /\ m <= x /\ (forall y, In y r -> m <= y).
Proof.
  induction r as [| y r IH]; intros x; simpl.
  - split; [auto | split; [apply Qle_refl | tauto]].
  - destruct (IH (if Qltb y x then y else x)) as (Hin & Hge & Hall).
    destruct (Qltb y x) eqn:Hxy.
    + apply Qltb_true in Hxy.
      split; [destruct Hin; auto |]. split.
      * apply Qle_trans with y; [| apply Qlt_le_weak]; assumption.
      * intros z [<- | Hz]; auto.
    + apply Qltb_false in Hxy.
      split; [destruct Hin; auto |]. split; [assumption |].
      intros z [<- | Hz]; [apply Qle_trans with x |]; auto.
Qed.

Lemma col_max_spec l :
  l <> [] -> In (col_max l) l /\ (forall y, In y l -> y <= col_max l).
Proof.
  destruct l as [| x r]; [congruence |]. intros _. simpl.
  destruct (fold_max_spec r x) as (Hin & Hge & Hall).
  split; [destruct Hin; auto |].
  intros y [<- | Hy]; auto.
Qed.

Lemma col_min_spec l :
  l <> [] -> In (col_min l) l /\ (forall y, In y l -> col_min l <= y).
Proof.
  destruct l as [| x r]; [congruence |]. intros _. simpl.
  destruct (fold_min_spec r x) as (Hin & Hge & Hall).
  split; [destruct Hin; auto |].
  intros y [<- | Hy]; auto.
Qed.

Lemma idxmax_spec l :
  l <> [] ->
  exists v, nth_error l (idxmax l) = Some v /\
    (forall j x, nth_error l j = Some x -> x <= v) /\
    (forall j x, (j < idxmax l)%nat -> nth_error l j = Some x -> x < v).
Proof.
  destruct l as [| x r]; [congruence |]. intros _.
  apply (idxmax_from_spec r [x] 0 x); [reflexivity | |].
  - intros [| j] y Hy; simpl in Hy; [injection Hy as <-; apply Qle_refl |].
    destruct j; discriminate.
  - intros j y Hj. lia.
Qed.

Lemma idxmin_spec l :
  l <> [] ->
  exists v, nth_error l (idxmin l) = Some v /\
    (forall j x, nth_error l j = Some x -> v <= x) /\
    (forall j x, (j < idxmin l)%nat -> nth_error l j = Some x -> v < x).
Proof.
  destruct l as [| x r]; [congruence |]. intros _.
  apply (idxmin_from_spec r [x] 0 x); [reflexivity | |].
  - intros [| j] y Hy; simpl in Hy; [injection Hy as <-; apply Qle_refl |].
    destruct j; discriminate.
  - intros j y Hj. lia.
Qed.

Lemma nth_error_temperatures df j x :
  nth_error (temperatures df) j = Some x ->
  exists r, nth_error df j = Some r /\ Temperature r = x.
Proof.
  unfold temperatures. rewrite nth_error_map.
  destruct (nth_error df j) as [r |]; simpl; [| discriminate].
  intros H. injection H as <-. eauto.
Qed.

Lemma temperatures_nth df j r :
  nth_error df j = Some r -> nth_error (temperatures df) j = Some (Temperature r).
Proof. unfold temperatures. rewrite nth_error_map. intros ->. reflexivity. Qed.

Lemma temperatures_not_nil df : df <> [] -> temperatures df <> [].
Proof. destruct df; simpl; congruence. Qed.

(** C6: on a non-empty table the reported highest (resp. lowest) record is
    the first one in table order attaining the maximum (resp. minimum)
    temperature; the printed value is that record's temperature. *)
Theorem reporter_first_extremum :
  forall df, df <> [] ->
  (exists i r, nth_error df i = Some r /\
     snd (highest df) = City r /\ fst (highest df) == Temperature r /\
     (forall j r', nth_error df j = Some r' -> Temperature r' <= Temperature r) /\
     (forall j r', (j < i)%nat -> nth_error df j = Some r' ->
        Temperature r' < Temperature r)) /\
  (exists i r, nth_error df i = Some r /\
     snd (lowest df) = City r /\ fst (lowest df) == Temperature r /\
     (forall j r', nth_error df j = Some r' -> Temperature r <= Temperature r') /\
     (forall j r', (j < i)%nat -> nth_error df j = Some r' ->
        Temperature r < Temperature r')).
Proof.
  intros df Hne. pose proof (temperatures_not_nil df Hne) as Hts.
  split.
  - destruct (idxmax_spec _ Hts) as (v & Hv & Hall & Hfirst).
    destruct (nth_error_temperatures _ _ _ Hv) as (r & Hr & <-).
    exists (idxmax (temperatures df)), r.
    split; [exact Hr |]. split.
    { unfold highest, city_at. simpl. rewrite Hr. reflexivity. }
    split.
    { destruct (col_max_spec _ Hts) as [Hin Hub]. simpl.
      apply In_nth_error in Hin as (k & Hk).
      apply Qle_antisym; [exact (Hall _ _ Hk) |].
      apply Hub. exact (nth_error_In _ _ Hv). }
    split.
    + intros j r' Hj. exact (Hall _ _ (temperatures_nth _ _ _ Hj)).
    + intros j r' Hlt Hj. exact (Hfirst _ _ Hlt (temperatures_nth _ _ _ Hj)).
  - destruct (idxmin_spec _ Hts) as (v & Hv & Hall & Hfirst).
    destruct (nth_error_temperatures _ _ _ Hv) as (r & Hr & <-).
    exists (idxmin (temperatures df)), r.
    split; [exact Hr |]. split.
    { unfold lowest, city_at. simpl. rewrite Hr. reflexivity. }
    split.
    { destruct (col_min_spec _ Hts) as [Hin Hlb]. simpl.
      apply In_nth_error in Hin as (k & Hk).
      apply Qle_antisym; [| exact (Hall _ _ Hk)].
      apply Hlb. exact (nth_error_In _ _ Hv). }
    split.
    + intros j r' Hj. exact (Hall _ _ (temperatures_nth _ _ _ Hj)).
    + intros j r' Hlt Hj. exact (Hfirst _ _ Hlt (temperatures_nth _ _ _ Hj)).
Qed.

Definition record_at (c : string) (t : Q) : weather_info :=
  {| City := c; Temperature := t; Humidity := JNum 50; Wind_Speed := 0;
     Weather_Code := JNum 0; Weather := "Clear sky"; Latitude := 0;
     Longitude := 0; Feels_Like := t |}.

Definition tie_table : list weather_info :=
  [record_at "Oslo" 10; record_at "Cairo" 30; record_at "Lima" 30;
   record_at "Rome" 20; record_at "Nome" 10].

Lemma reporter_first_extremum_witness :
  tie_table <> [] /\
  highest tie_table = (30, "Cairo") /\ lowest tie_table = (10, "Oslo") /\
  (exists i r, nth_error tie_table i = Some r /\
     snd (highest tie_table) = City r /\ fst (highest tie_table) == Temperature r /\
     (forall j r', nth_error tie_table j = Some r' -> Temperature r' <= Temperature r) /\
     (forall j r', (j < i)%nat -> nth_error tie_table j = Some r' ->
        Temperature r' < Temperature r)).
Proof.
  split; [discriminate |]. split; [reflexivity |]. split; [reflexivity |].
  exact (proj1 (reporter_first_extremum tie_table ltac:(discriminate))).
Defined.

(** ** Skipped cities *)





(** ** Field defaults of the Record Builder *)






(** ** How the script ends *)


Definition is_saved (e : event) : bool :=
  match e with
  | EvSaved _ _ => true
  | _ => false
  end.









(** ** Panel 1's colour normalisation *)

(** C9: for the spec's one-city run, the divisor [max - min] of line 131
    is zero, so the colour position of the only bar is numpy's [nan]; the
    image is still saved. *)
Theorem single_record_colour_nan :
  collect (net_with_A payload_A) [city_A; city_B] =
    ([EvFetching "A"; EvAdded "A" 15 "Clear sky";
      EvFetching "B"; EvFetchError "B" "ConnectionError"], Done [record_A]) /\
  col_max (temperatures [record_A]) - col_min (temperatures [record_A]) == 0 /\
  temp_color_positions [record_A] = [NNaN] /\
  temp_colors (dashboard_of [record_A] [Some 50]) = [NNaN] /\
  existsb is_saved (fst (main (net_with_A payload_A) [city_A; city_B])) = true.
Proof.
  split; [exact collect_scenario |].
  split; [reflexivity |]. split; [reflexivity |]. split; reflexivity.
Qed.

(** * Further properties of the script *)

(** ** Console lines of the fetch loop *)

Definition fetching_names (out : list event) : list string :=
  flat_map (fun e => match e with EvFetching n => [n] | _ => [] end) out.

Definition error_names (out : list event) : list string :=
  flat_map (fun e => match e with EvFetchError n _ => [n] | _ => [] end) out.

Definition added_names (out : list event) : list string :=
  flat_map (fun e => match e with EvAdded n _ _ => [n] | _ => [] end) out.

(** A city whose request raised [RequestException]. *)
Definition failed (net : city_info -> fetch_result) (c : city_info) : bool :=
  match net c with
  | FetchErr _ => true
  | FetchOk _ => false
  end.

Lemma fetch_city_cases net acc c out acc' :
  fetch_city net acc c = (out, Done acc') ->
  (exists e, net c = FetchErr e /\
     out = [EvFetching (name c); EvFetchError (name c) e] /\ acc' = acc) \/
  (exists body, net c = FetchOk body /\ obj_get "current" body = None /\
     out = [EvFetching (name c)] /\ acc' = acc) \/
  (exists body cur w, net c = FetchOk body /\ obj_get "current" body = Some cur /\
     build_record c cur = Some w /\
     out = [EvFetching (name c); EvAdded (name c) (Temperature w) (Weather w)] /\
     acc' = app acc [w]).
Proof.
  unfold fetch_city, fetch_weather_data.
  destruct (net c) as [body | e]; simpl.
  - destruct (obj_get "current" body) as [cur |] eqn:Hc; simpl.
    + destruct (build_record c cur) as [w |] eqn:Hb; simpl; intros H;
        inversion H; subst.
      right; right. exists body, cur, w. auto.
    + intros H. inversion H; subst. right; left. exists body. auto.
  - intros H. inversion H; subst. left. exists e. auto.
Qed.



Lemma fetch_loop_lines net reg :
  forall acc out df,
  fetch_loop net acc reg = (out, Done df) ->
  exists new, df = app acc new /\
    fetching_names out = map name reg /\
    error_names out = map name (filter (failed net) reg) /\
    added_names out = map City new /\
    map (fun w => (City w, Latitude w, Longitude w)) new =
      map (fun c => (name c, lat c, lon c)) (filter (succeeds net) reg).
Proof.
  induction reg as [| c rest IH]; intros acc out df H.
  - simpl in H. inversion H; subst. exists []. rewrite app_nil_r. auto.
  - simpl in H. apply bind_Done in H as (o1 & wd & o2 & Hc & Hl & ->).
    apply IH in Hl as (new & -> & Hf & He & Ha & Hco).
    unfold fetching_names, error_names, added_names in *.
    rewrite !flat_map_app.
    apply fetch_city_cases in Hc
      as [(e & Hn & -> & ->) | [(b & Hn & Hcur & -> & ->) |
          (b & cur & w & Hn & Hcur & Hb & -> & ->)]].
    + exists new. unfold succeeds, failed. simpl. rewrite Hn, Hf, He, Ha, Hco.
      auto.
    + exists new. unfold succeeds, failed. simpl. rewrite Hn, Hcur, Hf, He, Ha, Hco.
      auto.
    + exists (w :: new). rewrite <- app_assoc.
      unfold succeeds, failed. simpl. rewrite Hn, Hcur, Hf, He, Ha, Hco.
      assert (Hw : City w = name c /\ Latitude w = lat c /\ Longitude w = lon c).
      { revert Hb. unfold build_record. destruct cur; try discriminate.
        destruct (get_weather_description _); try discriminate.
        destruct (as_number (py_get fields "wind_speed_10m" (JNum 0))); try discriminate.
        destruct (as_number (py_get fields "temperature_2m" (JNum 0))); try discriminate.
        intros H. injection H as <-. auto. }
      destruct Hw as (-> & -> & ->). auto.
Qed.

(** Lines 85, 44 and 105 of a completed fetch loop: one progress line per
    registry city in registry order, an error line exactly for the cities
    whose request failed, and one success line per table row, naming the
    rows' cities in order. *)
Theorem fetch_loop_console :
  forall net reg out df,
  collect net reg = (out, Done df) ->
  fetching_names out = map name reg /\
  error_names out = map name (filter (failed net) reg) /\
  added_names out = map City df.
Proof.
  intros net reg out df H.
  apply fetch_loop_lines in H as (new & -> & Hf & He & Ha & _). auto.
Qed.

Lemma fetch_loop_console_witness :
  fetching_names (fst (collect (net_with_A payload_A) [city_B; city_A; city_B]))
    = ["B"; "A"; "B"] /\
  error_names (fst (collect (net_with_A payload_A) [city_B; city_A; city_B]))
    = ["B"; "B"] /\
  added_names (fst (collect (net_with_A payload_A) [city_B; city_A; city_B]))
    = ["A"].
Proof.
  destruct (fetch_loop_console (net_with_A payload_A) [city_B; city_A; city_B]
              (fst (collect (net_with_A payload_A) [city_B; city_A; city_B]))
              [record_A] eq_refl) as (Hf & He & Ha).
  rewrite Hf, He, Ha. split; [reflexivity | split; reflexivity].
Defined.

(** Lines 97-98: each row carries the coordinates of its registry city; the
    rows' (city, latitude, longitude) triples are those of the successful
    registry entries, in order. *)
Theorem rows_keep_coordinates :
  forall net reg out df,
  collect net reg = (out, Done df) ->
  map (fun w => (City w, Latitude w, Longitude w)) df =
    map (fun c => (name c, lat c, lon c)) (filter (succeeds net) reg).
Proof.
  intros net reg out df H.
  apply fetch_loop_lines in H as (new & -> & _ & _ & _ & Hco). exact Hco.
Qed.

Lemma rows_keep_coordinates_witness :
  map (fun w => (City w, Latitude w, Longitude w))
    (match snd (collect net_all_but_Paris cities) with Done df => df | _ => [] end)
  = map (fun c => (name c, lat c, lon c)) (filter (succeeds net_all_but_Paris) cities).
Proof.
  exact (rows_keep_coordinates net_all_but_Paris cities
           (fst (collect net_all_but_Paris cities)) _ eq_refl).
Defined.

(** ** An exception in the loop *)



(** ** Labels *)





(** ** Panel 1's colour positions beyond the degenerate case *)






(** ** Average temperature *)





(** ** Panel 6 *)



(** ** Panel 5's label counts *)










